(** * AmpliGraph: data source identifier and TransE scoring layer

    A shallow embedding of
      - [ampligraph/datasets/source_identifier.py]
      - [ampligraph/latent_features/layers/scoring/TransE.py]
    together with the properties stated about them.

    Python exceptions are modelled by an error monad, the instance
    attributes of [DataSourceIdentifier] by a record whose [src] slot may be
    unbound, the generator [chunks] by the list of arrays it yields followed
    by the way it stops, and tensors by nested lists of real numbers with
    NumPy-style broadcasting. *)

From Stdlib Require Import String Ascii List ZArith Lia Bool Arith.
From Stdlib Require Import Reals Lra.
From Equations Require Import Equations.
Import ListNotations.

Set Implicit Arguments.

(* ===================================================================== *)
(** ** Exceptions and the error monad *)
(* ===================================================================== *)

Inductive exn : Type :=
| NotImplementedError
| KeyError
| AttributeError
| ValueError
| InvalidArgumentError.

Inductive result (A : Type) : Type :=
| Ok (a : A)
| Raise (e : exn).
Arguments Ok {A} a.
Arguments Raise {A} e.

Definition bind {A B} (r : result A) (k : A -> result B) : result B :=
  match r with
  | Ok a => k a
  | Raise e => Raise e
  end.

Notation "x <- r ;; k" := (bind r (fun x => k))
  (at level 61, r at next level, right associativity).

Fixpoint mapM {A B} (f : A -> result B) (xs : list A) : result (list B) :=
  match xs with
  | [] => Ok []
  | x :: xs' => y <- f x ;; ys <- mapM f xs' ;; Ok (y :: ys)
  end.

Fixpoint zipM {A B C} (f : A -> B -> result C) (xs : list A) (ys : list B)
  : result (list C) :=
  match xs, ys with
  | x :: xs', y :: ys' => z <- f x y ;; zs <- zipM f xs' ys' ;; Ok (z :: zs)
  | _, _ => Ok []
  end.

(* ===================================================================== *)
(** ** source_identifier.py *)
(* ===================================================================== *)

Module SourceIdentifier.

Local Open Scope string_scope.
Local Open Scope Z_scope.

(** *** Python strings: [in], [str.split] and negative indexing

    A [str] is read as its UTF-8 bytes; "." is one byte and is part of no
    multi-byte character, so membership and splitting agree with Python's. *)

(** [sep in s] for a one-character [sep]. *)
Fixpoint contains (sep : ascii) (s : string) : bool :=
  match s with
  | EmptyString => false
  | String c s' => Ascii.eqb c sep || contains sep s'
  end.

(** [s.split(sep)] for a one-character [sep]: the maximal pieces between
    occurrences of [sep], empty pieces included; never the empty list. *)
Fixpoint split (sep : ascii) (s : string) : list string :=
  match s with
  | EmptyString => [EmptyString]
  | String c s' =>
      if Ascii.eqb c sep then EmptyString :: split sep s'
      else match split sep s' with
           | [] => [String c EmptyString]
           | w :: ws => String c w :: ws
           end
  end.

(** [l[-1]] on a list of strings ([split] never returns the empty list, so
    the default is never used by [_identify]). *)
Definition last_item (l : list string) : string := List.last l EmptyString.

Definition dot : ascii := "."%char.

(** *** The loader functions *)

(** The four module-level functions that the dispatch table refers to.
    Python compares functions by identity, hence a tag per function. *)
Inductive loader : Type :=
| fn_load_csv
| fn_load_gz
| fn_load_tar
| fn_chunks.

Section Loaders.

(** Items of an in-memory iterable, and cells of a parsed table. *)
Variable elem : Type.

Definition table := list (list elem).

(** What [pd.read_csv] hands back: a [DataFrame] when [chunksize] is
    [None], a lazy [TextFileReader] otherwise.  The parser itself belongs
    to pandas and is a parameter of the model. *)
Inductive pandas_data : Type :=
| DataFrame (values : table)
| TextFileReader (parts : list table).

Variable pd_read_csv : string -> string -> option Z -> result pandas_data.

Inductive loaded : Type :=
| NdArray (values : table)
| LazyIterator (parts : list table).

(** [load_csv(data_source, chunk_size=None, sep='\t', verbose=False)] *)
Definition load_csv (data_source : string) (chunk_size : option Z)
    (sep : string) (verbose : bool) : result loaded :=
  data <- pd_read_csv data_source sep chunk_size ;;
  match data with
  | DataFrame values => Ok (NdArray values)
  | TextFileReader parts => Ok (LazyIterator parts)
  end.

(** [load_gz(data_source, chunk_size=None, verbose=False)] *)
Definition load_gz (data_source : string) (chunk_size : option Z)
    (verbose : bool) : result loaded :=
  Raise NotImplementedError.

(** [load_tar(data_source, chunk_size=None, verbose=False)] *)
Definition load_tar (data_source : string) (chunk_size : option Z)
    (verbose : bool) : result loaded :=
  Raise NotImplementedError.

(** [itertools.islice(iterator, stop)] rejects a negative [stop] when it
    is built (the platform's upper bound [sys.maxsize] on [stop] is not
    modelled); consumed to the end it takes the next [stop] items off the
    shared iterator.  The pair is (items produced, iterator afterwards). *)
Definition islice (iterator : list elem) (stop : Z)
  : result (list elem * list elem) :=
  if stop <? 0 then Raise ValueError
  else Ok (firstn (Z.to_nat stop) iterator, skipn (Z.to_nat stop) iterator).

(** A generator run to exhaustion: the values it yields, in order, and
    the exception that ended it, if any. *)
Definition generated (A : Type) : Type := (list A * option exn)%type.

Definition yield {A} (a : A) (rest : generated A) : generated A :=
  (a :: fst rest, snd rest).

Definition inspect {A} (a : A) : {b : A | a = b} := exist _ a eq_refl.

(** The [for first in iterator:] loop of [chunks]; [iterator] is the
    state of the shared iterator, the items not yet consumed.  Each round
    yields [np.array(list(chain([first], islice(iterator, chunk_size - 1))))]. *)
Equations? chunks_loop (iterator : list elem) (chunk_size : Z)
  : generated (list elem) by wf (length iterator) lt :=
  chunks_loop [] _ := ([], None);
  chunks_loop (first :: iterator') chunk_size
    with inspect (islice iterator' (chunk_size - 1)) => {
    | exist _ (Raise e) _ := ([], Some e);
    | exist _ (Ok (taken, rest)) _ :=
        yield (first :: taken) (chunks_loop rest chunk_size) }.
Proof.
  match goal with H : islice _ _ = Ok _ |- _ =>
    unfold islice in H; destruct (_ <? 0); [discriminate |];
    injection H as _ <- end.
  rewrite length_skipn. simpl. lia.
Qed.

(** [chunks(iterable, chunk_size=1)] *)
Definition chunks (iterable : list elem) (chunk_size : Z)
  : generated (list elem) :=
  chunks_loop iterable chunk_size.

End Loaders.

(** *** The class [DataSourceIdentifier] *)

Section Identifier.

Variable elem : Type.

(** What can be passed as [data_source], by the two [isinstance] tests of
    [_identify]: a [str]; an object that is not a [str] but is an instance
    of [collections.abc.Iterable] (taken finite, with its items); any
    other object (an [int], [None], ...), told apart by an identity. *)
Inductive source : Type :=
| SrcStr (s : string)
| SrcIterable (items : list elem)
| SrcObject (ident : Z).

(** [isinstance(o, Iterable)]; a [str] is iterable too. *)
Definition isinstance_Iterable (o : source) : bool :=
  match o with SrcStr _ | SrcIterable _ => true | SrcObject _ => false end.

(** An instance attribute: assigned ([Bound]) or never assigned. *)
Inductive slot (A : Type) : Type :=
| Unbound
| Bound (v : A).
Arguments Unbound {A}.
Arguments Bound {A} v.

(** A [dict] with [str] keys, as its items in insertion order. *)
Definition dict (V : Type) : Type := list (string * V).

(** [key in d] *)
Fixpoint dict_contains {V} (key : string) (d : dict V) : bool :=
  match d with
  | [] => false
  | (k, _) :: d' => String.eqb key k || dict_contains key d'
  end.

(** [d[key]], where [key] may be [None] (never a key of these dicts). *)
Fixpoint dict_lookup {V} (key : string) (d : dict V) : option V :=
  match d with
  | [] => None
  | (k, v) :: d' => if String.eqb key k then Some v else dict_lookup key d'
  end.

Definition dict_getitem {V} (d : dict V) (key : option string) : result V :=
  match key with
  | None => Raise KeyError
  | Some k => match dict_lookup k d with
              | Some v => Ok v
              | None => Raise KeyError
              end
  end.

(** The attributes of an instance; [src] holds [None] or a type tag. *)
Record DataSourceIdentifier : Type := mkDataSourceIdentifier {
  verbose : bool;
  data_source : source;
  supported_types : dict loader;
  src : slot (option string)
}.

(** [self.src = v] *)
Definition set_src (self : DataSourceIdentifier) (v : option string)
  : DataSourceIdentifier :=
  {| verbose := verbose self;
     data_source := data_source self;
     supported_types := supported_types self;
     src := Bound v |}.

(** [_identify(self)]; the calls to [logger] are left out.  The first
    branch is the one taken when [isinstance(self.data_source, str)]. *)
Definition _identify (self : DataSourceIdentifier) : DataSourceIdentifier :=
  match data_source self with
  | SrcStr s =>
      let self1 :=
        set_src self (if contains dot s
                      then Some (last_item (split dot s))
                      else None) in
      match src self1 with
      | Bound (Some tag) =>
          if negb (dict_contains tag (supported_types self1))
          then set_src self1 None
          else self1
      | _ => self1
      end
  | other =>
      if isinstance_Iterable other
      then set_src self (Some "iter")
      else self
  end.

(** [__init__(self, data_source, verbose=False)]: no attribute is bound
    before, [src] is bound by [_identify] only. *)
Definition __init__ (data_source : source) (verbose : bool)
  : DataSourceIdentifier :=
  _identify
    {| verbose := verbose;
       data_source := data_source;
       supported_types := [("csv", fn_load_csv);
                           ("txt", fn_load_csv);
                           ("gz", fn_load_csv);
                           ("tar", fn_load_tar);
                           ("iter", fn_chunks)];
       src := Unbound |}.

(** Reading [self.src]. *)
Definition getattr_src (self : DataSourceIdentifier)
  : result (option string) :=
  match src self with
  | Unbound => Raise AttributeError
  | Bound v => Ok v
  end.

(** [fetch_loader(self)] *)
Definition fetch_loader (self : DataSourceIdentifier) : result loader :=
  key <- getattr_src self ;;
  dict_getitem (supported_types self) key.

(** [get_src(self)] *)
Definition get_src (self : DataSourceIdentifier) : result (option string) :=
  getattr_src self.

End Identifier.

Arguments SrcStr {elem} s.
Arguments SrcIterable {elem} items.
Arguments SrcObject {elem} ident.
Arguments Unbound {A}.
Arguments Bound {A} v.

(** *** Vocabulary of the properties *)

(** [s] ends in [suffix]. *)
Definition ends_with (s suffix : string) : Prop :=
  exists prefix, s = prefix ++ suffix.

(** [ext] is the trailing extension of [s]: what follows its last ".". *)
Definition has_extension (s ext : string) : Prop :=
  exists stem, s = stem ++ String dot ext /\ contains dot ext = false.

(** The function behind a tag raises [NotImplementedError] on every call,
    whatever its arguments (and, for [load_csv], whatever pandas returns). *)
Definition raises_not_implemented (elem : Type) (l : loader) : Prop :=
  match l with
  | fn_load_csv =>
      forall pd_read_csv data_source chunk_size sep verbose,
        @load_csv elem pd_read_csv data_source chunk_size sep verbose
        = Raise NotImplementedError
  | fn_load_gz =>
      forall data_source chunk_size verbose,
        @load_gz elem data_source chunk_size verbose
        = Raise NotImplementedError
  | fn_load_tar =>
      forall data_source chunk_size verbose,
        @load_tar elem data_source chunk_size verbose
        = Raise NotImplementedError
  | fn_chunks =>
      forall iterable chunk_size,
        snd (@chunks elem iterable chunk_size) = Some NotImplementedError
  end.

(** The dispatch table that [__init__] gives every instance. *)
Definition the_supported_types : dict loader :=
  [("csv", fn_load_csv); ("txt", fn_load_csv); ("gz", fn_load_csv);
   ("tar", fn_load_tar); ("iter", fn_chunks)].


End SourceIdentifier.

(* ===================================================================== *)
(** ** TransE.py *)
(* ===================================================================== *)

Module TransE.

Local Open Scope R_scope.

(** *** Tensors

    Embeddings are real numbers here: the rounding of the tensor runtime's
    floating-point arithmetic is outside the model.  A tensor of rank 1, 2
    or 3 is a list nested as deep as its rank. *)

Abbreviation vector := (list R) (only parsing).
Abbreviation matrix := (list (list R)) (only parsing).
Abbreviation tensor3 := (list (list (list R))) (only parsing).

(** Broadcasting along one axis, for a binary operation [f] on the items:
    an axis of length 1 is stretched to the other length, equal lengths are
    paired, anything else is a shape error. *)
Definition broadcast {A B C} (f : A -> B -> result C)
    (xs : list A) (ys : list B) : result (list C) :=
  match xs, ys with
  | [x], _ => mapM (f x) ys
  | _, [y] => mapM (fun x => f x y) xs
  | _, _ =>
      if Nat.eqb (length xs) (length ys) then zipM f xs ys
      else Raise InvalidArgumentError
  end.

Definition add0 (x y : R) : result R := Ok (x + y).
Definition sub0 (x y : R) : result R := Ok (x - y).

(** [a + b] and [a - b] on tensors of equal rank. *)
Definition add1 : vector -> vector -> result vector := broadcast add0.
Definition add2 : matrix -> matrix -> result matrix := broadcast add1.
Definition add3 : tensor3 -> tensor3 -> result tensor3 := broadcast add2.
Definition sub1 : vector -> vector -> result vector := broadcast sub0.
Definition sub2 : matrix -> matrix -> result matrix := broadcast sub1.
Definition sub3 : tensor3 -> tensor3 -> result tensor3 := broadcast sub2.

(** Mixed ranks: the tensor of lower rank gets leading axes of length 1.
    The layer adds a matrix to a tensor of rank 3 and subtracts a matrix
    from one; adding a vector to a matrix is how a constant vector is added
    to every embedding of a batch. *)
Definition add_2_3 (a : matrix) (b : tensor3) : result tensor3 := add3 [a] b.
Definition sub_3_2 (a : tensor3) (b : matrix) : result tensor3 := sub3 a [b].
Definition add_2_1 (a : matrix) (b : vector) : result matrix := add2 a [b].

(** [tf.expand_dims(x, 1)] on a matrix: shape (n, k) to (n, 1, k). *)
Definition expand_dims_1 (x : matrix) : tensor3 := map (fun row => [row]) x.

Definition reduce_sum (v : vector) : R := fold_right Rplus 0 v.

(** The Euclidean norm that [tf.norm] takes by default along the reduced
    axis: the square root of the sum of the squares. *)
Definition euclidean (v : vector) : R := sqrt (reduce_sum (map (fun x => x * x) v)).

(** [tf.norm(x, axis=1)] on a matrix and [tf.norm(x, axis=2)] on a tensor
    of rank 3: in both the last axis is reduced. *)
Definition norm_axis1 (x : matrix) : vector := map euclidean x.
Definition norm_axis2 (x : tensor3) : matrix := map (map euclidean) x.

(** [tf.negative] on tensors of rank 1 and 2. *)
Definition negative1 (x : vector) : vector := map Ropp x.
Definition negative2 (x : matrix) : matrix := map (map Ropp) x.

(** *** The layer

    [triples] is the sequence of the subject, predicate and object
    embeddings of a batch, indexed [triples[0]], [triples[1]], [triples[2]];
    the methods do not read [self]. *)
Abbreviation triples := (list (list R) * list (list R) * list (list R))%type
  (only parsing).

Definition triples_0 (t : triples) : matrix := fst (fst t).
Definition triples_1 (t : triples) : matrix := snd (fst t).
Definition triples_2 (t : triples) : matrix := snd t.

(** [_compute_scores(self, triples)] *)
Definition _compute_scores (t : triples) : result vector :=
  sp <- add2 (triples_0 t) (triples_1 t) ;;
  spo <- sub2 sp (triples_2 t) ;;
  Ok (negative1 (norm_axis1 spo)).

(** [_get_subject_corruption_scores(self, triples, ent_matrix)] *)
Definition _get_subject_corruption_scores (t : triples) (ent_matrix : matrix)
  : result matrix :=
  let rel_emb := triples_1 t in
  let obj_emb := triples_2 t in
  d <- sub2 rel_emb obj_emb ;;
  x <- add_2_3 ent_matrix (expand_dims_1 d) ;;
  Ok (negative2 (norm_axis2 x)).

(** [_get_object_corruption_scores(self, triples, ent_matrix)] *)
Definition _get_object_corruption_scores (t : triples) (ent_matrix : matrix)
  : result matrix :=
  let sub_emb := triples_0 t in
  let rel_emb := triples_1 t in
  a <- add2 sub_emb rel_emb ;;
  x <- sub_3_2 (expand_dims_1 a) ent_matrix ;;
  Ok (negative2 (norm_axis2 x)).

(** *** Vocabulary of the properties *)

(** [f] applied to the items of two lists, pair by pair. *)
Definition zip_with {A B C} (f : A -> B -> C) (xs : list A) (ys : list B)
  : list C :=
  map (fun xy => f (fst xy) (snd xy)) (combine xs ys).

(** A matrix of shape (n, k). *)
Definition has_shape (n k : nat) (x : matrix) : bool :=
  Nat.eqb (length x) n && forallb (fun row => Nat.eqb (length row) k) x.

(** Entry (i, j) of a matrix. *)
Definition entry (x : matrix) (i j : nat) : R := nth j (nth i x []) 0.

(** The sum of [f 0], ..., [f (k - 1)]. *)
Fixpoint sigma (k : nat) (f : nat -> R) : R :=
  match k with
  | O => 0
  | S k' => f O + sigma k' (fun j => f (S j))
  end.

(** The L2 norm of the k-vector with components [f 0], ..., [f (k - 1)]. *)
Definition l2 (k : nat) (f : nat -> R) : R := sqrt (sigma k (fun j => f j * f j)).

End TransE.

Unset Implicit Arguments.

(* ===================================================================== *)
(** ** Properties of the data source identifier *)
(* ===================================================================== *)

Section IdentifierFacts.

Import SourceIdentifier.
Local Open Scope string_scope.

Lemma split_not_nil sep s : split sep s <> [].
Proof.
  destruct s as [| c s]; simpl; [discriminate |].
  destruct (Ascii.eqb c sep); [discriminate |].
  destruct (split sep s); discriminate.
Qed.

Lemma contains_app sep a b :
  contains sep (a ++ b) = contains sep a || contains sep b.
Proof.
  induction a as [| c a IH]; simpl; [reflexivity |].
  rewrite IH. apply orb_assoc.
Qed.

Lemma split_no_sep sep s : contains sep s = false -> split sep s = [s].
Proof.
  induction s as [| c s IH]; simpl; [reflexivity |].
  intros H. apply orb_false_iff in H as [Hc Hs].
  rewrite Hc, (IH Hs). reflexivity.
Qed.

(** Splitting distributes over a separator in the middle. *)
Lemma split_app_sep sep a b :
  split sep (a ++ String sep b) = (split sep a ++ split sep b)%list.
Proof.
  induction a as [| c a IH]; simpl.
  - rewrite Ascii.eqb_refl. reflexivity.
  - destruct (Ascii.eqb c sep).
    + rewrite IH. reflexivity.
    + rewrite IH. pose proof (split_not_nil sep a) as Hne.
      destruct (split sep a) as [| w ws]; [contradiction | reflexivity].
Qed.

Lemma last_app_nonempty (A : Type) (l1 l2 : list A) d :
  l2 <> [] -> List.last (l1 ++ l2) d = List.last l2 d.
Proof.
  intros Hne. induction l1 as [| x l1 IH]; simpl; [reflexivity |].
  rewrite IH. destruct (l1 ++ l2)%list eqn:E; [| reflexivity].
  apply app_eq_nil in E as [_ E]. contradiction.
Qed.

(** [split(".")[-1]] is the trailing extension. *)
Lemma last_item_extension s ext :
  has_extension s ext ->
  contains dot s = true /\ last_item (split dot s) = ext.
Proof.
  intros (stem & -> & Hext). split.
  - rewrite contains_app. simpl. apply orb_true_r.
  - unfold last_item. rewrite split_app_sep.
    rewrite last_app_nonempty by apply split_not_nil.
    rewrite (split_no_sep _ _ Hext). reflexivity.
Qed.

(** A string with a "." has a trailing extension. *)
Lemma extension_exists s :
  contains dot s = true -> has_extension s (last_item (split dot s)).
Proof.
  intros H.
  assert (Hex : exists ext, has_extension s ext).
  { induction s as [| c s IH]; simpl in H; [discriminate |].
    destruct (contains dot s) eqn:Hs.
    - destruct (IH eq_refl) as (ext & stem & -> & Hext).
      exists ext, (String c stem). split; [reflexivity | exact Hext].
    - rewrite orb_false_r in H. apply Ascii.eqb_eq in H. subst c.
      exists s, EmptyString. split; [reflexivity | exact Hs]. }
  destruct Hex as (ext & Hext).
  destruct (last_item_extension _ _ Hext) as [_ ->]. exact Hext.
Qed.

Variable elem : Type.

Lemma supported_types_init (data_source : source elem) verbose :
  supported_types (__init__ data_source verbose) = the_supported_types.
Proof.
  unfold __init__, _identify. simpl.
  destruct data_source as [s | items | ident]; simpl; try reflexivity.
  destruct (contains dot s); cbn [src set_src supported_types];
    [| reflexivity].
  match goal with |- context [negb ?b] => destruct b end; reflexivity.
Qed.

(** What [_identify] binds [src] to when the data source is a string. *)
Lemma src_of_string s verbose :
  src (__init__ (@SrcStr elem s) verbose)
  = Bound (if contains dot s
           then if dict_contains (last_item (split dot s)) the_supported_types
                then Some (last_item (split dot s))
                else None
           else None).
Proof.
  unfold __init__, _identify. cbn [data_source].
  fold the_supported_types.
  destruct (contains dot s); cbn [src set_src supported_types];
    [| reflexivity].
  destruct (dict_contains (last_item (split dot s)) the_supported_types);
    reflexivity.
Qed.

Lemma src_of_extension s ext verbose :
  has_extension s ext ->
  src (__init__ (@SrcStr elem s) verbose)
  = Bound (if dict_contains ext the_supported_types then Some ext else None).
Proof.
  intros H. rewrite src_of_string.
  destruct (last_item_extension _ _ H) as [-> ->]. reflexivity.
Qed.

Lemma fetch_loader_extension s ext verbose l :
  has_extension s ext ->
  dict_lookup ext the_supported_types = Some l ->
  dict_contains ext the_supported_types = true ->
  fetch_loader (__init__ (@SrcStr elem s) verbose) = Ok l.
Proof.
  intros H Hl Hc. unfold fetch_loader, getattr_src.
  rewrite (src_of_extension s ext verbose H), Hc, supported_types_init.
  cbn [bind dict_getitem]. rewrite Hl. reflexivity.
Qed.

End IdentifierFacts.

Section IdentifierClaims.

Import SourceIdentifier.
Local Open Scope string_scope.

(** C6. For every path string whose trailing extension (the substring after
    the last ".") is "csv" or "txt", [fetch_loader] of the identifier built
    from it returns the CSV loader function [load_csv]. *)
Theorem fetch_loader_csv_txt (elem : Type) (s : string) (verbose : bool) :
  has_extension s "csv" \/ has_extension s "txt" ->
  fetch_loader (__init__ (@SrcStr elem s) verbose) = Ok fn_load_csv.
Proof.
  intros [H | H];
    apply (fetch_loader_extension elem s _ verbose _ H); reflexivity.
Qed.

Lemma fetch_loader_csv_txt_witness :
  (has_extension "data.csv" "csv" \/ has_extension "data.csv" "txt")
  /\ fetch_loader (__init__ (@SrcStr nat "data.csv") false) = Ok fn_load_csv.
Proof.
  assert (H : has_extension "data.csv" "csv" \/ has_extension "data.csv" "txt").
  { left. exists "data". split; reflexivity. }
  split; [exact H | exact (fetch_loader_csv_txt nat _ false H)].
Defined.

(** C7. For every string input that contains no "." character, the type
    tag that [get_src] returns is absent ([None]). *)
Theorem get_src_no_dot (elem : Type) (s : string) (verbose : bool) :
  contains dot s = false ->
  get_src (__init__ (@SrcStr elem s) verbose) = Ok None.
Proof.
  intros H. unfold get_src, getattr_src.
  rewrite src_of_string, H. reflexivity.
Qed.

Lemma get_src_no_dot_witness :
  contains dot "triples" = false
  /\ get_src (__init__ (@SrcStr nat "triples") true) = Ok None.
Proof.
  split; [reflexivity | apply (get_src_no_dot nat "triples" true); reflexivity].
Defined.

(** C1, as stated, fails: "data.gz" ends in "gz", yet the loader that
    [fetch_loader] returns for it is [load_csv], which does not raise
    [NotImplementedError] when pandas parses the file. *)
Lemma fetch_loader_gz_counterexample :
  ~ (forall s : string,
        ends_with s "gz" ->
        exists l,
          fetch_loader (__init__ (@SrcStr nat s) false) = Ok l
          /\ raises_not_implemented nat l).
Proof.
  intros H.
  destruct (H "data.gz") as (l & Hl & Hraise).
  - exists "data.". reflexivity.
  - vm_compute in Hl. injection Hl as <-.
    specialize (Hraise (fun _ _ _ => Ok (DataFrame [])) "data.gz" None "," false).
    discriminate Hraise.
Qed.

(** C1, amended. For every path string whose trailing extension is "gz",
    [fetch_loader] returns [load_csv], the CSV loader, which is not a
    not-implemented stub; the stub [load_gz], which raises
    [NotImplementedError] whenever it is invoked, is bound to no key of the
    instance's table. *)
Theorem fetch_loader_gz (elem : Type) (s : string) (verbose : bool) :
  has_extension s "gz" ->
  fetch_loader (__init__ (@SrcStr elem s) verbose) = Ok fn_load_csv
  /\ ~ raises_not_implemented elem fn_load_csv
  /\ raises_not_implemented elem fn_load_gz
  /\ (forall key,
        dict_getitem (supported_types (__init__ (@SrcStr elem s) verbose)) key
        <> Ok fn_load_gz).
Proof.
  intros H. repeat split.
  - apply (fetch_loader_extension elem s _ verbose _ H); reflexivity.
  - intros Hraise.
    specialize (Hraise (fun _ _ _ => Ok (DataFrame [])) "" None "" false).
    discriminate Hraise.
  - intros key. rewrite supported_types_init.
    destruct key as [k |]; [| discriminate].
    unfold dict_getitem, the_supported_types, dict_lookup.
    repeat match goal with
           | |- context [String.eqb k ?t] => destruct (String.eqb k t)
           end; discriminate.
Qed.

Lemma fetch_loader_gz_witness :
  has_extension "archive.tar.gz" "gz"
  /\ fetch_loader (__init__ (@SrcStr nat "archive.tar.gz") false)
     = Ok fn_load_csv.
Proof.
  assert (H : has_extension "archive.tar.gz" "gz").
  { exists "archive.tar". split; reflexivity. }
  split; [exact H | exact (proj1 (fetch_loader_gz nat _ false H))].
Defined.

(** C2, on the code. For an object that is neither a string nor iterable
    the constructor returns an instance (no exception), but [_identify]
    leaves [src] unassigned: [get_src] raises [AttributeError] instead of
    returning [None], and [fetch_loader] raises [AttributeError] too. *)
Theorem src_unbound_for_other_objects (elem : Type) (ident : Z) (verbose : bool) :
  src (__init__ (@SrcObject elem ident) verbose) = Unbound
  /\ get_src (__init__ (@SrcObject elem ident) verbose) = Raise AttributeError
  /\ get_src (__init__ (@SrcObject elem ident) verbose) <> Ok None
  /\ fetch_loader (__init__ (@SrcObject elem ident) verbose)
     = Raise AttributeError.
Proof. repeat split. discriminate. Qed.

(** C10, as stated, fails: the string "data.iter" resolves to the tag
    "iter", because "iter" is a key of the table its extension is looked
    up in. *)
Lemma string_never_iter_counterexample :
  ~ (forall s : string,
        get_src (__init__ (@SrcStr nat s) false) <> Ok (Some "iter")).
Proof. intros H. apply (H "data.iter"). reflexivity. Qed.

(** C10, amended. For every string input the string branch of the
    identification decides alone: the tag is "iter" exactly when the
    trailing extension of the string is literally "iter", and a string
    without a supported extension (no ".", or an extension that is not a
    key of the table) resolves to the absent tag [None], not to "iter". *)
Theorem string_iter_only_by_extension (elem : Type) (s : string) (verbose : bool) :
  (get_src (__init__ (@SrcStr elem s) verbose) = Ok (Some "iter")
   <-> has_extension s "iter")
  /\ ((forall ext, has_extension s ext ->
                   dict_contains ext the_supported_types = false) ->
      get_src (__init__ (@SrcStr elem s) verbose) = Ok None).
Proof.
  unfold get_src, getattr_src. rewrite src_of_string. split; [split |].
  - destruct (contains dot s) eqn:Hdot; [| discriminate].
    destruct (dict_contains _ _); [| discriminate].
    intros E. injection E as E. rewrite <- E.
    apply extension_exists, Hdot.
  - intros H. destruct (last_item_extension _ _ H) as [-> ->]. reflexivity.
  - intros H. destruct (contains dot s) eqn:Hdot; [| reflexivity].
    rewrite (H _ (extension_exists _ Hdot)). reflexivity.
Qed.

Lemma string_iter_only_by_extension_witness :
  (get_src (__init__ (@SrcStr nat "data.iter") false) = Ok (Some "iter")
   <-> has_extension "data.iter" "iter")
  /\ get_src (__init__ (@SrcStr nat "notes.md") false) = Ok None.
Proof.
  split.
  - exact (proj1 (string_iter_only_by_extension nat "data.iter" false)).
  - apply (proj2 (string_iter_only_by_extension nat "notes.md" false)).
    intros ext (stem & E & Hext).
    assert (Hx : has_extension "notes.md" ext) by (exists stem; auto).
    destruct (last_item_extension _ _ Hx) as [_ <-]. reflexivity.
Defined.

End IdentifierClaims.

(* ===================================================================== *)
(** ** Properties of the generator [chunks] *)
(* ===================================================================== *)

Section ChunksFacts.

Import SourceIdentifier.
Local Open Scope Z_scope.

Variable elem : Type.

(** One round of the loop, read off the definition. *)
Lemma chunks_loop_cons (first : elem) iterator chunk_size :
  chunks_loop (first :: iterator) chunk_size
  = match islice iterator (chunk_size - 1) with
    | Ok (taken, rest) => yield (first :: taken) (chunks_loop rest chunk_size)
    | Raise e => ([], Some e)
    end.
Proof.
  rewrite chunks_loop_equation_2.
  destruct (inspect (islice iterator (chunk_size - 1)))
    as [[[taken rest] | e] H]; simpl.
  - assert (E : forall r, r = Ok (taken, rest) ->
              yield (first :: taken) (chunks_loop rest chunk_size)
              = match r with
                | Ok (taken, rest) =>
                    yield (first :: taken) (chunks_loop rest chunk_size)
                | Raise e => ([], Some e)
                end) by (intros r ->; reflexivity).
    apply E. exact H.
  - assert (E : forall r, r = Raise e ->
              ([], Some e)
              = match r with
                | Ok (taken, rest) =>
                    yield (first :: taken) (chunks_loop rest chunk_size)
                | Raise e => (@nil (list elem), Some e)
                end) by (intros r ->; reflexivity).
    apply E. exact H.
Qed.










End ChunksFacts.

Section ChunksClaims.

Import SourceIdentifier.
Local Open Scope string_scope.
Local Open Scope Z_scope.

(** A chunk size below 1 makes [islice] refuse its [stop] argument in the
    first round, so the requested sizes that group anything start at 1. *)
Lemma chunks_size_below_one (elem : Type) (first : elem) rest chunk_size :
  chunk_size < 1 ->
  chunks (first :: rest) chunk_size = ([], Some ValueError).
Proof.
  intros Hc. unfold chunks. rewrite chunks_loop_cons. unfold islice.
  destruct (chunk_size - 1 <? 0) eqn:E; [reflexivity | lia].
Qed.





End ChunksClaims.

(* ===================================================================== *)
(** ** Properties of the TransE scoring layer *)
(* ===================================================================== *)

Section TensorFacts.

Import TransE.
Local Open Scope R_scope.

(** **** The error monad on lists *)

Lemma mapM_ok (A B : Type) (f : A -> result B) (g : A -> B) xs :
  (forall x, In x xs -> f x = Ok (g x)) -> mapM f xs = Ok (map g xs).
Proof.
  induction xs as [| x xs IH]; intros H; simpl; [reflexivity |].
  rewrite (H x) by (left; reflexivity). simpl.
  rewrite IH by (intros y Hy; apply H; right; exact Hy). reflexivity.
Qed.

Lemma zipM_ok (A B C : Type) (f : A -> B -> result C) (g : A -> B -> C) xs ys :
  (forall x y, In (x, y) (combine xs ys) -> f x y = Ok (g x y)) ->
  zipM f xs ys = Ok (zip_with g xs ys).
Proof.
  revert ys. induction xs as [| x xs IH]; intros [| y ys] H; try reflexivity.
  simpl. rewrite (H x y) by (left; reflexivity). simpl.
  rewrite IH by (intros a b Hab; apply H; right; exact Hab). reflexivity.
Qed.

(** **** Broadcasting along one axis *)

Lemma broadcast_same (A B C : Type) (f : A -> B -> result C) xs ys :
  length xs = length ys -> broadcast f xs ys = zipM f xs ys.
Proof.
  intros Hlen. unfold broadcast.
  destruct xs as [| x [| x' xs]]; destruct ys as [| y [| y' ys]];
    try discriminate Hlen; try reflexivity.
  all: simpl in Hlen; injection Hlen as Hlen.
  all: cbn [length Nat.eqb]; rewrite Hlen, Nat.eqb_refl; reflexivity.
Qed.

Lemma broadcast_left (A B C : Type) (f : A -> B -> result C) x ys :
  broadcast f [x] ys = mapM (f x) ys.
Proof. reflexivity. Qed.

Lemma broadcast_right (A B C : Type) (f : A -> B -> result C) xs y :
  broadcast f xs [y] = mapM (fun x => f x y) xs.
Proof. destruct xs as [| x [| x' xs]]; reflexivity. Qed.

(** **** Lists paired item by item *)

Lemma zip_with_length (A B C : Type) (f : A -> B -> C) xs ys :
  length xs = length ys -> length (zip_with f xs ys) = length xs.
Proof.
  intros H. unfold zip_with. rewrite length_map, length_combine. lia.
Qed.

Lemma zip_with_nth (A B C : Type) (f : A -> B -> C) xs ys i dx dy d :
  (i < length xs)%nat -> length xs = length ys ->
  nth i (zip_with f xs ys) d = f (nth i xs dx) (nth i ys dy).
Proof.
  revert ys i. induction xs as [| x xs IH]; intros [| y ys] i Hi Hlen;
    simpl in *; try lia.
  destruct i as [| i]; [reflexivity |].
  apply IH; lia.
Qed.

Lemma map_nth_in (A B : Type) (f : A -> B) xs i dx d :
  (i < length xs)%nat -> nth i (map f xs) d = f (nth i xs dx).
Proof.
  intros Hi. rewrite (nth_indep _ d (f dx)) by (rewrite length_map; exact Hi).
  apply map_nth.
Qed.

(** **** Shapes *)

Lemma has_shape_spec n k (x : matrix) :
  has_shape n k x = true
  <-> length x = n /\ forall row, In row x -> length row = k.
Proof.
  unfold has_shape. rewrite andb_true_iff, Nat.eqb_eq, forallb_forall.
  split; intros [Hn Hk]; (split; [exact Hn |]);
    intros row Hrow; apply Nat.eqb_eq, Hk, Hrow.
Qed.

Lemma has_shape_row n k (x : matrix) i :
  has_shape n k x = true -> (i < n)%nat -> length (nth i x []) = k.
Proof.
  intros H Hi. apply has_shape_spec in H as [Hn Hk].
  apply Hk, nth_In. lia.
Qed.

Lemma has_shape_combine n k (x y : matrix) rx ry :
  has_shape n k x = true -> has_shape n k y = true ->
  In (rx, ry) (combine x y) -> length rx = k /\ length ry = k.
Proof.
  intros Hx Hy Hin.
  apply has_shape_spec in Hx as [_ Hx]. apply has_shape_spec in Hy as [_ Hy].
  split; [apply Hx; eapply in_combine_l | apply Hy; eapply in_combine_r];
    exact Hin.
Qed.

(** **** Elementwise operations on equal shapes *)

Lemma broadcast_equal_shape (f : R -> R -> R) (op0 : R -> R -> result R)
    n k (x y : matrix) :
  (forall a b, op0 a b = Ok (f a b)) ->
  has_shape n k x = true -> has_shape n k y = true ->
  broadcast (broadcast op0) x y = Ok (zip_with (zip_with f) x y).
Proof.
  intros Hop Hx Hy.
  assert (Hlen : length x = length y).
  { pose proof (proj1 (has_shape_spec _ _ _) Hx) as [Hnx _].
    pose proof (proj1 (has_shape_spec _ _ _) Hy) as [Hny _].
    exact (eq_trans Hnx (eq_sym Hny)). }
  rewrite (broadcast_same _ _ _ _ _ _ Hlen).
  apply zipM_ok. intros rx ry Hin.
  destruct (has_shape_combine _ _ _ _ _ _ Hx Hy Hin) as [Hrx Hry].
  rewrite broadcast_same by congruence.
  apply zipM_ok. intros a b _. apply Hop.
Qed.

Lemma add2_equal_shape n k (x y : matrix) :
  has_shape n k x = true -> has_shape n k y = true ->
  add2 x y = Ok (zip_with (zip_with Rplus) x y).
Proof. apply broadcast_equal_shape. reflexivity. Qed.

Lemma sub2_equal_shape n k (x y : matrix) :
  has_shape n k x = true -> has_shape n k y = true ->
  sub2 x y = Ok (zip_with (zip_with Rminus) x y).
Proof. apply broadcast_equal_shape. reflexivity. Qed.

Lemma zip_with_shape (f : R -> R -> R) n k (x y : matrix) :
  has_shape n k x = true -> has_shape n k y = true ->
  has_shape n k (zip_with (zip_with f) x y) = true.
Proof.
  intros Hx Hy. apply has_shape_spec. split.
  - rewrite zip_with_length.
    + apply has_shape_spec in Hx. tauto.
    + apply has_shape_spec in Hx as [Hnx _].
      apply has_shape_spec in Hy as [Hny _].
      exact (eq_trans Hnx (eq_sym Hny)).
  - intros row Hrow. unfold zip_with at 1 in Hrow.
    apply in_map_iff in Hrow as ([rx ry] & <- & Hin).
    destruct (has_shape_combine _ _ _ _ _ _ Hx Hy Hin) as [Hrx Hry].
    simpl. rewrite zip_with_length; congruence.
Qed.

Lemma zip_with_entry (f : R -> R -> R) n k (x y : matrix) i j :
  has_shape n k x = true -> has_shape n k y = true ->
  (i < n)%nat -> (j < k)%nat ->
  entry (zip_with (zip_with f) x y) i j = f (entry x i j) (entry y i j).
Proof.
  intros Hx Hy Hi Hj. unfold entry.
  pose proof (has_shape_row _ _ _ _ Hx Hi) as Hrx.
  pose proof (has_shape_row _ _ _ _ Hy Hi) as Hry.
  apply has_shape_spec in Hx as [Hnx _]. apply has_shape_spec in Hy as [Hny _].
  rewrite (zip_with_nth _ _ _ _ _ _ _ [] [] []) by lia.
  apply zip_with_nth; lia.
Qed.

(** Two matrices of one shape with the same entries are equal. *)
Lemma matrix_ext n k (x y : matrix) :
  has_shape n k x = true -> has_shape n k y = true ->
  (forall i j, (i < n)%nat -> (j < k)%nat -> entry x i j = entry y i j) ->
  x = y.
Proof.
  intros Hx Hy H.
  pose proof Hx as Hx'. pose proof Hy as Hy'.
  apply has_shape_spec in Hx' as [Hnx _]. apply has_shape_spec in Hy' as [Hny _].
  apply (nth_ext _ _ [] []); [lia |].
  intros i Hi.
  apply (nth_ext _ _ 0 0).
  - rewrite (has_shape_row n k x i), (has_shape_row n k y i) by (assumption || lia). reflexivity.
  - intros j Hj. rewrite (has_shape_row n k x i) in Hj by (assumption || lia).
    apply H; lia.
Qed.

(** **** Sums and norms *)







End TensorFacts.

Section ScoreFacts.

Import TransE.
Local Open Scope R_scope.

(** The scores of a batch whose three matrices have one shape. *)
Lemma compute_scores_equal_shape n k (s p o : matrix) :
  has_shape n k s = true -> has_shape n k p = true ->
  has_shape n k o = true ->
  _compute_scores (s, p, o)
  = Ok (negative1 (norm_axis1
          (zip_with (zip_with Rminus) (zip_with (zip_with Rplus) s p) o))).
Proof.
  intros Hs Hp Ho. unfold _compute_scores, triples_0, triples_1, triples_2.
  cbn [fst snd].
  rewrite (add2_equal_shape n k) by assumption. cbn [bind].
  rewrite (sub2_equal_shape n k) by (try apply zip_with_shape; assumption).
  reflexivity.
Qed.



Lemma op1_equal_length (f : R -> R -> R) (op0 : R -> R -> result R) (a b : vector) :
  (forall x y, op0 x y = Ok (f x y)) ->
  length a = length b ->
  broadcast op0 a b = Ok (zip_with f a b).
Proof.
  intros Hop Hlen. rewrite broadcast_same by exact Hlen.
  apply zipM_ok. intros x y _. apply Hop.
Qed.

Lemma subject_corruption_equal_shape n m k (s p o ent_matrix : matrix) :
  has_shape n k p = true -> has_shape n k o = true ->
  has_shape m k ent_matrix = true ->
  _get_subject_corruption_scores (s, p, o) ent_matrix
  = Ok (map (fun r => map (fun e => - euclidean (zip_with Rplus e r)) ent_matrix)
            (zip_with (zip_with Rminus) p o)).
Proof.
  intros Hp Ho He.
  unfold _get_subject_corruption_scores, triples_1, triples_2. cbn [fst snd].
  rewrite (sub2_equal_shape n k) by assumption. cbn [bind].
  pose proof (zip_with_shape Rminus n k p o Hp Ho) as Hd.
  set (d := zip_with (zip_with Rminus) p o) in *.
  apply has_shape_spec in Hd as [_ Hdk]. apply has_shape_spec in He as [_ Hek].
  unfold add_2_3, add3. rewrite broadcast_left. unfold expand_dims_1.
  rewrite (mapM_ok _ _ (add2 ent_matrix)
             (fun x => map (fun e => zip_with Rplus e (hd [] x)) ent_matrix)).
  - cbn [bind]. unfold negative2, norm_axis2. rewrite !map_map.
    f_equal. apply map_ext. intros r. cbn [hd]. rewrite !map_map.
    reflexivity.
  - intros x Hx. apply in_map_iff in Hx as (r & <- & Hr). cbn [hd].
    unfold add2. rewrite broadcast_right.
    apply mapM_ok. intros e Hin. apply op1_equal_length; [reflexivity |].
    rewrite (Hek e Hin), (Hdk r Hr). reflexivity.
Qed.

Lemma object_corruption_equal_shape n m k (s p o ent_matrix : matrix) :
  has_shape n k s = true -> has_shape n k p = true ->
  has_shape m k ent_matrix = true ->
  _get_object_corruption_scores (s, p, o) ent_matrix
  = Ok (map (fun r => map (fun e => - euclidean (zip_with Rminus r e)) ent_matrix)
            (zip_with (zip_with Rplus) s p)).
Proof.
  intros Hs Hp He.
  unfold _get_object_corruption_scores, triples_0, triples_1. cbn [fst snd].
  rewrite (add2_equal_shape n k) by assumption. cbn [bind].
  pose proof (zip_with_shape Rplus n k s p Hs Hp) as Ha.
  set (a := zip_with (zip_with Rplus) s p) in *.
  apply has_shape_spec in Ha as [_ Hak]. apply has_shape_spec in He as [_ Hek].
  unfold sub_3_2, sub3. rewrite broadcast_right. unfold expand_dims_1.
  rewrite (mapM_ok _ _ (fun x => sub2 x ent_matrix)
             (fun x => map (fun e => zip_with Rminus (hd [] x) e) ent_matrix)).
  - cbn [bind]. unfold negative2, norm_axis2. rewrite !map_map.
    f_equal. apply map_ext. intros r. cbn [hd]. rewrite !map_map.
    reflexivity.
  - intros x Hx. apply in_map_iff in Hx as (r & <- & Hr). cbn [hd].
    unfold sub2. rewrite broadcast_left.
    apply mapM_ok. intros e Hin. apply op1_equal_length; [reflexivity |].
    rewrite (Hek e Hin), (Hak r Hr). reflexivity.
Qed.


End ScoreFacts.

Section ScoreClaims.

Import TransE.
Local Open Scope R_scope.





(** [x + c] for a matrix [x] and a vector [c] of the rows' length: [c] is
    added to every row. *)
Lemma add_row_vector n k (x : matrix) (c : vector) :
  has_shape n k x = true -> length c = k ->
  add_2_1 x c = Ok (map (fun row => zip_with Rplus row c) x)
  /\ has_shape n k (map (fun row => zip_with Rplus row c) x) = true
  /\ forall i j, (i < n)%nat -> (j < k)%nat ->
       entry (map (fun row => zip_with Rplus row c) x) i j
       = entry x i j + nth j c 0.
Proof.
  intros Hx Hc.
  pose proof (proj1 (has_shape_spec _ _ _) Hx) as [Hn Hk].
  split; [| split].
  - unfold add_2_1, add2. rewrite broadcast_right.
    apply mapM_ok. intros row Hrow.
    apply op1_equal_length; [reflexivity |].
    rewrite (Hk row Hrow), Hc. reflexivity.
  - apply has_shape_spec. split; [rewrite length_map; exact Hn |].
    intros row Hrow. apply in_map_iff in Hrow as (r & <- & Hr).
    rewrite zip_with_length; rewrite (Hk r Hr); congruence.
  - intros i j Hi Hj. unfold entry.
    rewrite (map_nth_in _ _ _ x i [] []) by lia.
    apply zip_with_nth; rewrite (has_shape_row n k x i Hx Hi); lia.
Qed.



End ScoreClaims.

(* ===================================================================== *)
(** ** Further properties of the data source identifier *)
(* ===================================================================== *)

Section IdentifierMore.

Import SourceIdentifier.
Local Open Scope string_scope.

Lemma dict_contains_lookup (V : Type) (key : string) (d : dict V) :
  dict_contains key d = true <-> exists v, dict_lookup key d = Some v.
Proof.
  induction d as [| [k v] d IH]; simpl.
  - split; [discriminate | intros [v H]; discriminate].
  - destruct (String.eqb key k); simpl.
    + split; [intros _; exists v; reflexivity | reflexivity].
    + exact IH.
Qed.

Lemma dict_contains_false (V : Type) (key : string) (d : dict V) :
  dict_contains key d = false <-> dict_lookup key d = None.
Proof.
  induction d as [| [k v] d IH]; simpl; [tauto |].
  destruct (String.eqb key k); simpl; [split; discriminate | exact IH].
Qed.

Lemma supported_keys (t : string) :
  dict_contains t the_supported_types = true
  <-> In t ["csv"; "txt"; "gz"; "tar"; "iter"].
Proof.
  unfold the_supported_types. simpl.
  rewrite !orb_true_iff, !String.eqb_eq. intuition (auto; discriminate).
Qed.

(** What [_identify] binds [src] to for a string, on any table. *)
Lemma identify_string (elem : Type) (table : dict loader) s verbose sl :
  src (_identify (@mkDataSourceIdentifier elem verbose (SrcStr s) table sl))
  = Bound (if contains dot s
           then if dict_contains (last_item (split dot s)) table
                then Some (last_item (split dot s))
                else None
           else None).
Proof.
  unfold _identify. cbn [data_source].
  destruct (contains dot s); cbn [src set_src supported_types];
    [| reflexivity].
  destruct (dict_contains (last_item (split dot s)) table); reflexivity.
Qed.

Lemma identify_keeps_table (elem : Type) (self : DataSourceIdentifier elem) :
  supported_types (_identify self) = supported_types self
  /\ data_source (_identify self) = data_source self
  /\ verbose (_identify self) = verbose self.
Proof.
  destruct self as [v ds table sl]. unfold _identify. cbn [data_source].
  destruct ds as [s | items | ident]; cbn; try (repeat split; reflexivity).
  destruct (contains dot s); cbn [src set_src supported_types];
    [| repeat split; reflexivity].
  match goal with |- context [negb ?b] => destruct b end;
    repeat split; reflexivity.
Qed.

(** X1. For every path string whose trailing extension is "tar",
    [fetch_loader] returns [load_tar], and [load_tar] raises
    [NotImplementedError] whatever it is called with. *)
Theorem fetch_loader_tar (elem : Type) (s : string) (verbose : bool) :
  has_extension s "tar" ->
  fetch_loader (__init__ (@SrcStr elem s) verbose) = Ok fn_load_tar
  /\ raises_not_implemented elem fn_load_tar.
Proof.
  intros H. split.
  - apply (fetch_loader_extension elem s _ verbose _ H); reflexivity.
  - intros data_source chunk_size v. reflexivity.
Qed.

Lemma fetch_loader_tar_witness :
  has_extension "dump.tar" "tar"
  /\ fetch_loader (__init__ (@SrcStr nat "dump.tar") false) = Ok fn_load_tar.
Proof.
  assert (H : has_extension "dump.tar" "tar").
  { exists "dump". split; reflexivity. }
  split; [exact H | exact (proj1 (fetch_loader_tar nat _ false H))].
Defined.

(** X2. The type tag of a string is characterised by its trailing
    extension, compared as it is written (no change of case, no trimming):
    [get_src] returns the tag t exactly when t is the trailing extension and
    one of "csv", "txt", "gz", "tar", "iter"; it returns [None] exactly when
    the string has no trailing extension among these five. *)
Theorem string_tag_characterised (elem : Type) (s : string) (verbose : bool) :
  (forall t,
      get_src (__init__ (@SrcStr elem s) verbose) = Ok (Some t)
      <-> has_extension s t /\ In t ["csv"; "txt"; "gz"; "tar"; "iter"])
  /\ (get_src (__init__ (@SrcStr elem s) verbose) = Ok None
      <-> forall t, has_extension s t ->
                    ~ In t ["csv"; "txt"; "gz"; "tar"; "iter"]).
Proof.
  unfold get_src, getattr_src. rewrite src_of_string.
  destruct (contains dot s) eqn:Hdot.
  - pose proof (extension_exists s Hdot) as Hext.
    set (e := last_item (split dot s)) in *.
    assert (Huniq : forall t, has_extension s t -> t = e).
    { intros t Ht. destruct (last_item_extension _ _ Ht) as [_ E].
      symmetry. exact E. }
    destruct (dict_contains e the_supported_types) eqn:Hin.
    + apply supported_keys in Hin. split.
      * intros t. split.
        -- intros E. injection E as <-. split; assumption.
        -- intros [Ht _]. rewrite (Huniq t Ht). reflexivity.
      * split; [discriminate |].
        intros H. exfalso. exact (H e Hext Hin).
    + split.
      * intros t. split; [discriminate |].
        intros [Ht Hk]. rewrite (Huniq t Ht) in Hk.
        apply supported_keys in Hk. congruence.
      * split; [| reflexivity].
        intros _ t Ht Hk. rewrite (Huniq t Ht) in Hk.
        apply supported_keys in Hk. congruence.
  - assert (Hnone : forall t, ~ has_extension s t).
    { intros t Ht. destruct (last_item_extension _ _ Ht) as [E _].
      congruence. }
    split.
    + intros t. split; [discriminate |].
      intros [Ht _]. exfalso. exact (Hnone t Ht).
    + split; [| reflexivity].
      intros _ t Ht. exfalso. exact (Hnone t Ht).
Qed.

(** X3. Whatever the data source, [fetch_loader] of a new instance returns
    a loader exactly when [get_src] returns a tag, and then it is the
    loader the table holds for that tag; it raises [KeyError] exactly when
    [get_src] returns [None], and [AttributeError] exactly when [get_src]
    does.  A tag that [get_src] returns is always a key of the table. *)
Theorem fetch_loader_by_tag (elem : Type) (data_source : source elem)
    (verbose : bool) :
  (forall l,
      fetch_loader (__init__ data_source verbose) = Ok l
      <-> exists tag,
            get_src (__init__ data_source verbose) = Ok (Some tag)
            /\ dict_lookup tag the_supported_types = Some l)
  /\ (fetch_loader (__init__ data_source verbose) = Raise KeyError
      <-> get_src (__init__ data_source verbose) = Ok None)
  /\ (fetch_loader (__init__ data_source verbose) = Raise AttributeError
      <-> get_src (__init__ data_source verbose) = Raise AttributeError).
Proof.
  unfold fetch_loader, get_src, getattr_src.
  rewrite supported_types_init.
  assert (Hsrc : src (__init__ data_source verbose) = Unbound
                 \/ src (__init__ data_source verbose) = Bound None
                 \/ exists tag l,
                      src (__init__ data_source verbose) = Bound (Some tag)
                      /\ dict_lookup tag the_supported_types = Some l).
  { destruct data_source as [s | items | ident].
    - rewrite src_of_string. destruct (contains dot s); [| right; left; reflexivity].
      destruct (dict_contains (last_item (split dot s)) the_supported_types)
        eqn:Hin; [| right; left; reflexivity].
      apply dict_contains_lookup in Hin as [l Hl].
      right. right. exists (last_item (split dot s)), l. split; [reflexivity | exact Hl].
    - right. right. exists "iter", fn_chunks. split; reflexivity.
    - left. reflexivity. }
  destruct Hsrc as [-> | [-> | (tag & l0 & -> & Hl0)]]; cbn [bind dict_getitem].
  - split; [| split].
    + intros l. split; [discriminate | intros (t & E & _); discriminate].
    + split; discriminate.
    + split; reflexivity.
  - split; [| split].
    + intros l. split; [discriminate | intros (t & E & _); discriminate].
    + split; reflexivity.
    + split; discriminate.
  - rewrite Hl0. split; [| split].
    + intros l. split.
      * intros E. injection E as <-. exists tag. split; [reflexivity | exact Hl0].
      * intros (t & E & Hl). injection E as <-. congruence.
    + split; discriminate.
    + split; discriminate.
Qed.

(** X4. [_identify] on an instance with any table (the table is meant to
    be extended with new file extensions): for a string whose trailing
    extension is a key, the tag is that extension and [fetch_loader] returns
    the loader stored under it; when the extension is not a key the tag is
    [None] and [fetch_loader] raises [KeyError]. *)
Theorem identify_string_any_table (elem : Type) (table : dict loader)
    (s ext : string) (verbose : bool) (sl : slot (option string)) :
  has_extension s ext ->
  (forall l,
      dict_lookup ext table = Some l ->
      get_src (_identify (@mkDataSourceIdentifier elem verbose (SrcStr s) table sl))
      = Ok (Some ext)
      /\ fetch_loader
           (_identify (@mkDataSourceIdentifier elem verbose (SrcStr s) table sl))
         = Ok l)
  /\ (dict_lookup ext table = None ->
      get_src (_identify (@mkDataSourceIdentifier elem verbose (SrcStr s) table sl))
      = Ok None
      /\ fetch_loader
           (_identify (@mkDataSourceIdentifier elem verbose (SrcStr s) table sl))
         = Raise KeyError).
Proof.
  intros H. destruct (last_item_extension _ _ H) as [Hdot Hlast].
  unfold fetch_loader, get_src, getattr_src.
  destruct (identify_keeps_table elem
              (@mkDataSourceIdentifier elem verbose (SrcStr s) table sl))
    as (-> & _ & _).
  rewrite identify_string, Hdot, Hlast. cbn [supported_types].
  split.
  - intros l Hl.
    assert (Hin : dict_contains ext table = true)
      by (apply dict_contains_lookup; exists l; exact Hl).
    rewrite Hin. cbn [bind dict_getitem]. rewrite Hl. split; reflexivity.
  - intros Hl. apply dict_contains_false in Hl. rewrite Hl.
    split; reflexivity.
Qed.

Lemma identify_string_any_table_witness :
  has_extension "graph.json" "json"
  /\ fetch_loader
       (_identify (@mkDataSourceIdentifier nat false (SrcStr "graph.json")
                     [("json", fn_load_csv)] Unbound))
     = Ok fn_load_csv.
Proof.
  assert (H : has_extension "graph.json" "json").
  { exists "graph". split; reflexivity. }
  split; [exact H |].
  exact (proj2 (proj1 (identify_string_any_table nat [("json", fn_load_csv)]
                         "graph.json" "json" false Unbound H)
                  fn_load_csv eq_refl)).
Defined.

(** X5. [_identify] only ever assigns [src]: the other attributes are
    kept, and identifying an instance a second time changes nothing. *)
Theorem identify_idempotent (elem : Type) (self : DataSourceIdentifier elem) :
  _identify (_identify self) = _identify self
  /\ verbose (_identify self) = verbose self
  /\ data_source (_identify self) = data_source self
  /\ supported_types (_identify self) = supported_types self.
Proof.
  destruct (identify_keeps_table elem self) as (Ht & Hd & Hv).
  split; [| repeat split; assumption].
  destruct self as [v ds table sl]. cbn [data_source supported_types verbose] in *.
  destruct ds as [s | items | ident].
  - unfold _identify at 1. rewrite Hd.
    unfold _identify. cbn [data_source].
    destruct (contains dot s); cbn [src set_src supported_types verbose data_source];
      [| reflexivity].
    destruct (dict_contains (last_item (split dot s)) table) eqn:Hin;
      cbn [negb set_src src supported_types verbose data_source];
      try rewrite Hin; reflexivity.
  - reflexivity.
  - reflexivity.
Qed.

Lemma concat_cons (sep x : string) (l : list string) :
  l <> [] ->
  String.concat sep (x :: l) = (x ++ sep ++ String.concat sep l)%string.
Proof. destruct l; [contradiction | reflexivity]. Qed.

(** X6. The model of [str.split]: joining the pieces of [s.split(sep)]
    with [sep] gives [s] back, no piece contains [sep], and there is one
    piece more than there are occurrences of [sep]. *)
Theorem split_join (sep : ascii) (s : string) :
  String.concat (String sep EmptyString) (split sep s) = s
  /\ Forall (fun piece => contains sep piece = false) (split sep s)
  /\ length (split sep s)
     = S (length (filter (Ascii.eqb sep) (list_ascii_of_string s))).
Proof.
  induction s as [| c s (IHjoin & IHpieces & IHlen)].
  - simpl. repeat split. constructor; [reflexivity | constructor].
  - pose proof (split_not_nil sep s) as Hne.
    cbn [split list_ascii_of_string filter].
    rewrite (Ascii.eqb_sym sep c).
    destruct (Ascii.eqb c sep) eqn:Hc.
    + apply Ascii.eqb_eq in Hc. subst c. split; [| split].
      * rewrite concat_cons by exact Hne. rewrite IHjoin. reflexivity.
      * constructor; [reflexivity | exact IHpieces].
      * cbn [length]. rewrite IHlen. reflexivity.
    + destruct (split sep s) as [| w ws] eqn:E; [contradiction |].
      split; [| split].
      * rewrite <- IHjoin. destruct ws; reflexivity.
      * inversion IHpieces as [| ? ? Hw Hws]; subst.
        constructor; [simpl; rewrite Hc, Hw; reflexivity | exact Hws].
      * exact IHlen.
Qed.

End IdentifierMore.

(* ===================================================================== *)
(** ** Further properties of the generator [chunks] *)
(* ===================================================================== *)

Section ChunksMore.

Import SourceIdentifier.
Local Open Scope Z_scope.

(** X7. With a chunk size below 1 [chunks] never yields an array: on an
    empty iterable it just ends, on any other it raises [ValueError] in the
    first round (from [islice], whose [stop] is then negative). *)
Theorem chunks_invalid_size (elem : Type) (iterable : list elem)
    (chunk_size : Z) :
  chunk_size < 1 ->
  fst (chunks iterable chunk_size) = []
  /\ (snd (chunks iterable chunk_size) = Some ValueError <-> iterable <> [])
  /\ (snd (chunks iterable chunk_size) = None <-> iterable = []).
Proof.
  intros Hc. destruct iterable as [| first rest].
  - unfold chunks. rewrite chunks_loop_equation_1. cbn [fst snd].
    repeat split; try discriminate; try reflexivity.
    intros H. contradiction.
  - rewrite (chunks_size_below_one elem first rest chunk_size Hc).
    cbn [fst snd]. repeat split; try discriminate; try reflexivity.
Qed.

Lemma chunks_invalid_size_witness :
  0 < 1
  /\ chunks [7; 8; 9]%nat 0 = ([], Some ValueError)
  /\ (snd (chunks [7; 8; 9]%nat 0) = Some ValueError <-> [7; 8; 9]%nat <> []).
Proof.
  assert (H : 0 < 1) by lia.
  split; [exact H |]. split; [reflexivity |].
  exact (proj1 (proj2 (chunks_invalid_size nat [7; 8; 9]%nat 0 H))).
Defined.








End ChunksMore.

(* ===================================================================== *)
(** ** Further properties of the TransE scoring layer *)
(* ===================================================================== *)

Section ScoreMore.

Import TransE.
Local Open Scope R_scope.

(** **** The three operations, entry by entry *)


Lemma scores_length n k (s p o : matrix) :
  has_shape n k s = true -> has_shape n k p = true ->
  has_shape n k o = true ->
  length (negative1 (norm_axis1
            (zip_with (zip_with Rminus) (zip_with (zip_with Rplus) s p) o)))
  = n.
Proof.
  intros Hs Hp Ho.
  pose proof (zip_with_shape Rplus n k s p Hs Hp) as Hsp.
  pose proof (zip_with_shape Rminus n k _ o Hsp Ho) as Hspo.
  unfold negative1, norm_axis1. rewrite !length_map.
  apply has_shape_spec in Hspo. tauto.
Qed.



(** **** Norms *)







Lemma euclidean_nonneg (v : vector) : 0 <= euclidean v.
Proof. apply sqrt_pos. Qed.

(** X12. No score is positive: for a batch of n triples and m candidates
    of one dimensionality, every score that [_compute_scores] returns and
    every entry of the two corruption score matrices is at most 0. *)
Theorem scores_nonpositive (n m k : nat) (s p o ent_matrix : matrix) :
  has_shape n k s = true -> has_shape n k p = true ->
  has_shape n k o = true -> has_shape m k ent_matrix = true ->
  (exists scores,
      _compute_scores (s, p, o) = Ok scores
      /\ Forall (fun x => x <= 0) scores)
  /\ (exists sub_corr_score,
        _get_subject_corruption_scores (s, p, o) ent_matrix = Ok sub_corr_score
        /\ Forall (Forall (fun x => x <= 0)) sub_corr_score)
  /\ (exists obj_corr_score,
        _get_object_corruption_scores (s, p, o) ent_matrix = Ok obj_corr_score
        /\ Forall (Forall (fun x => x <= 0)) obj_corr_score).
Proof.
  intros Hs Hp Ho He. split; [| split].
  - eexists. split; [apply (compute_scores_equal_shape n k); assumption |].
    unfold negative1, norm_axis1. rewrite map_map.
    apply Forall_forall. intros x Hx.
    apply in_map_iff in Hx as (v & <- & _).
    pose proof (euclidean_nonneg v). lra.
  - eexists.
    split; [apply (subject_corruption_equal_shape n m k); assumption |].
    apply Forall_forall. intros row Hrow.
    apply in_map_iff in Hrow as (r & <- & _).
    apply Forall_forall. intros x Hx.
    apply in_map_iff in Hx as (e & <- & _).
    pose proof (euclidean_nonneg (zip_with Rplus e r)). lra.
  - eexists.
    split; [apply (object_corruption_equal_shape n m k); assumption |].
    apply Forall_forall. intros row Hrow.
    apply in_map_iff in Hrow as (r & <- & _).
    apply Forall_forall. intros x Hx.
    apply in_map_iff in Hx as (e & <- & _).
    pose proof (euclidean_nonneg (zip_with Rminus r e)). lra.
Qed.

Lemma scores_nonpositive_witness :
  has_shape 1 2 [[3; 0]] = true
  /\ exists scores,
       _compute_scores ([[3; 0]], [[0; 4]], [[0; 0]]) = Ok scores
       /\ Forall (fun x => x <= 0) scores.
Proof.
  split; [reflexivity |].
  exact (proj1 (scores_nonpositive 1 1 2 [[3; 0]] [[0; 4]] [[0; 0]] [[1; 1]]
                  eq_refl eq_refl eq_refl eq_refl)).
Defined.



(** **** A batch that repeats one embedding *)

Lemma repeat_shape n k (e : vector) :
  length e = k -> has_shape n k (repeat e n) = true.
Proof.
  intros He. apply has_shape_spec. split; [apply repeat_length |].
  intros row Hrow. apply repeat_spec in Hrow. subst row. exact He.
Qed.

Lemma repeat_entry n (e : vector) i l :
  (i < n)%nat -> entry (repeat e n) i l = nth l e 0.
Proof.
  intros Hi. unfold entry. rewrite nth_repeat_lt by exact Hi. reflexivity.
Qed.



(** **** Shapes that do not fit *)

Lemma broadcast_mismatch (A B C : Type) (f : A -> B -> result C) xs ys :
  length xs <> length ys -> length xs <> 1%nat -> length ys <> 1%nat ->
  broadcast f xs ys = Raise InvalidArgumentError.
Proof.
  intros Hne Hx Hy. unfold broadcast.
  destruct xs as [| x [| x' xs]]; destruct ys as [| y [| y' ys]];
    cbn [length] in *; try contradiction; try reflexivity.
  cbn [Nat.eqb].
  destruct (Nat.eqb (length xs) (length ys)) eqn:E; [| reflexivity].
  apply Nat.eqb_eq in E. congruence.
Qed.

Lemma mapM_first_raises (A B : Type) (f : A -> result B) x xs e :
  f x = Raise e -> mapM f (x :: xs) = Raise e.
Proof. intros H. simpl. rewrite H. reflexivity. Qed.

(** X15. Shapes are not checked by the layer, the tensor arithmetic
    raises: [_compute_scores] raises [InvalidArgumentError] when two of the
    three embedding matrices differ in their number of rows and neither has
    exactly one row, and both corruption operations raise it when the
    candidates' dimensionality differs from the triples' (neither being 1)
    for a non-empty batch and a non-empty candidate matrix. *)
Theorem shape_mismatch_raises :
  (forall s p o : matrix,
      length s <> length p -> length s <> 1%nat -> length p <> 1%nat ->
      _compute_scores (s, p, o) = Raise InvalidArgumentError)
  /\ (forall (n k : nat) (s p o : matrix),
        has_shape n k s = true -> has_shape n k p = true ->
        length o <> n -> n <> 1%nat -> length o <> 1%nat ->
        _compute_scores (s, p, o) = Raise InvalidArgumentError)
  /\ (forall (n m k k' : nat) (s p o ent_matrix : matrix),
        has_shape n k s = true -> has_shape n k p = true ->
        has_shape n k o = true -> has_shape m k' ent_matrix = true ->
        (1 <= n)%nat -> (1 <= m)%nat ->
        k <> k' -> k <> 1%nat -> k' <> 1%nat ->
        _get_subject_corruption_scores (s, p, o) ent_matrix
        = Raise InvalidArgumentError
        /\ _get_object_corruption_scores (s, p, o) ent_matrix
           = Raise InvalidArgumentError).
Proof.
  split; [| split].
  - intros s p o Hne Hs Hp. unfold _compute_scores, triples_0, triples_1.
    cbn [fst snd]. unfold add2.
    rewrite broadcast_mismatch by assumption. reflexivity.
  - intros n k s p o Hs Hp Hne Hn Ho.
    unfold _compute_scores, triples_0, triples_1, triples_2. cbn [fst snd].
    rewrite (add2_equal_shape n k) by assumption. cbn [bind].
    pose proof (zip_with_shape Rplus n k s p Hs Hp) as Hsp.
    apply has_shape_spec in Hsp as [Hlen _].
    unfold sub2. rewrite broadcast_mismatch; [reflexivity | | | ]; congruence.
  - intros n m k k' s p o ent_matrix Hs Hp Ho He Hn Hm Hk Hk1 Hk'1.
    pose proof (proj1 (has_shape_spec _ _ _) He) as [Hem Hek].
    destruct ent_matrix as [| e ent_rest]; [cbn [length] in Hem; lia |].
    assert (Hel : length e = k') by (apply Hek; left; reflexivity).
    split.
    + unfold _get_subject_corruption_scores, triples_1, triples_2.
      cbn [fst snd].
      rewrite (sub2_equal_shape n k) by assumption. cbn [bind].
      pose proof (zip_with_shape Rminus n k p o Hp Ho) as Hd.
      pose proof (proj1 (has_shape_spec _ _ _) Hd) as [Hdn Hdk].
      destruct (zip_with (zip_with Rminus) p o) as [| r d_rest];
        [cbn [length] in Hdn; lia |].
      assert (Hrl : length r = k) by (apply Hdk; left; reflexivity).
      unfold add_2_3, add3. rewrite broadcast_left.
      cbn [expand_dims_1 map].
      rewrite (mapM_first_raises _ _ _ _ _ InvalidArgumentError);
        [reflexivity |].
      unfold add2. rewrite broadcast_right.
      apply mapM_first_raises. unfold add1.
      apply broadcast_mismatch; congruence.
    + unfold _get_object_corruption_scores, triples_0, triples_1.
      cbn [fst snd].
      rewrite (add2_equal_shape n k) by assumption. cbn [bind].
      pose proof (zip_with_shape Rplus n k s p Hs Hp) as Ha.
      pose proof (proj1 (has_shape_spec _ _ _) Ha) as [Han Hak].
      destruct (zip_with (zip_with Rplus) s p) as [| r a_rest];
        [cbn [length] in Han; lia |].
      assert (Hrl : length r = k) by (apply Hak; left; reflexivity).
      unfold sub_3_2, sub3. rewrite broadcast_right.
      cbn [expand_dims_1 map].
      rewrite (mapM_first_raises _ _ _ _ _ InvalidArgumentError);
        [reflexivity |].
      unfold sub2. rewrite broadcast_left.
      apply mapM_first_raises. unfold sub1.
      apply broadcast_mismatch; congruence.
Qed.

Lemma shape_mismatch_raises_witness :
  _compute_scores ([[1; 2]; [3; 4]], [[1; 2]; [3; 4]; [5; 6]], [[0; 0]; [0; 0]])
  = Raise InvalidArgumentError
  /\ _get_subject_corruption_scores
       ([[1; 2]; [3; 4]], [[1; 2]; [3; 4]], [[0; 0]; [0; 0]])
       [[1; 2; 3]; [4; 5; 6]]
     = Raise InvalidArgumentError.
Proof.
  split.
  - apply (proj1 shape_mismatch_raises); cbn [length]; lia.
  - apply (proj2 (proj2 shape_mismatch_raises) 2%nat 2%nat 2%nat 3%nat);
      try reflexivity; lia.
Defined.

(** **** Reversal and composition of translations *)










(** X18. An embedding matrix with a single row is not rejected but
    stretched over the batch: with one predicate embedding r for all
    triples, [_compute_scores] returns what it returns when r is repeated
    once per triple. *)
Theorem scores_single_predicate (n k : nat) (s o : matrix) (r : vector) :
  has_shape n k s = true -> has_shape n k o = true -> length r = k ->
  _compute_scores (s, [r], o) = _compute_scores (s, repeat r n, o)
  /\ exists scores,
       _compute_scores (s, [r], o) = Ok scores /\ length scores = n.
Proof.
  intros Hs Ho Hr.
  pose proof (repeat_shape n k r Hr) as Hrep.
  destruct (add_row_vector n k s r Hs Hr) as (Hadd & Hshape & Hentry).
  assert (Hrun : _compute_scores (s, [r], o)
                 = Ok (negative1 (norm_axis1
                        (zip_with (zip_with Rminus)
                           (zip_with (zip_with Rplus) s (repeat r n)) o)))).
  { assert (E : map (fun row => zip_with Rplus row r) s
                = zip_with (zip_with Rplus) s (repeat r n)).
    { apply (matrix_ext n k);
        [exact Hshape | apply zip_with_shape; assumption |].
      intros i j Hi Hj. rewrite (Hentry i j Hi Hj).
      rewrite (zip_with_entry Rplus n k) by assumption.
      rewrite repeat_entry by exact Hi. reflexivity. }
    unfold _compute_scores, triples_0, triples_1, triples_2. cbn [fst snd].
    unfold add_2_1 in Hadd. rewrite Hadd, E. cbn [bind].
    rewrite (sub2_equal_shape n k)
      by (try apply zip_with_shape; assumption).
    reflexivity. }
  split.
  - rewrite Hrun. symmetry.
    apply (compute_scores_equal_shape n k); assumption.
  - eexists. split; [exact Hrun |].
    apply (scores_length n k); assumption.
Qed.

Lemma scores_single_predicate_witness :
  has_shape 3 2 [[1; 2]; [3; 4]; [5; 6]] = true
  /\ _compute_scores ([[1; 2]; [3; 4]; [5; 6]], [[1; 1]],
                      [[0; 0]; [1; 1]; [2; 2]])
     = _compute_scores ([[1; 2]; [3; 4]; [5; 6]], repeat [1; 1] 3,
                        [[0; 0]; [1; 1]; [2; 2]]).
Proof.
  split; [reflexivity |].
  exact (proj1 (scores_single_predicate 3 2
                  [[1; 2]; [3; 4]; [5; 6]] [[0; 0]; [1; 1]; [2; 2]] [1; 1]
                  eq_refl eq_refl eq_refl)).
Defined.

End ScoreMore.
